(** * pulp-debug-bridge: the bridge selector [get_bridge]

  A shallow embedding of [python/bridge/debug_bridge.py] and of the
  bridge capability contract it hands out.

  - [Py]       Python values, exceptions and the state-and-error monad
               the embedded code runs in.
  - [Selector] [get_bridge] itself, over any configuration tree and
               any bridge constructors.
  - [Json]     a small configuration tree and a storing constructor,
               used to run [get_bridge] on concrete inputs.
  - [Contract] the capability state machine of a bridge handle.
  - [Runs]     concrete configurations, images and handles.
  - [SelectorFacts], [ContractFacts] and the runs that close the file:
               what holds of the above. *)

From Stdlib Require Import Ascii.
From stdpp Require Import base strings list gmap.


(** ** Python values, exceptions, results *)

Module Py.

(** Scalars a configuration leaf can hold. *)
Inductive pyval :=
| PyNone
| PyBool (b : bool)
| PyInt (z : Z)
| PyStr (s : string).

(** Exception kinds: the interpreter's own, then the bridge's taxonomy. *)
Inductive exn :=
| AttributeError
| IndexError
| TypeError
| ConfigurationError
| TransportError
| ProtocolError
| OutOfRangeError
| InvalidStateError
| UnknownRegisterError.

Inductive result (A : Type) :=
| Ok (a : A)
| Raise (e : exn).
Arguments Ok {A} a.
Arguments Raise {A} e.

Definition rbind {A B} (k : A -> result B) (r : result A) : result B :=
  match r with
  | Ok a => k a
  | Raise e => Raise e
  end.

(** [chip == 'gap']: a [str] equals a [str] with the same characters
    and nothing else. *)
Definition py_eq_str (v : pyval) (s : string) : bool :=
  match v with
  | PyStr t => bool_decide (t = s)
  | _ => false
  end.

(** [x.method(...)] where [x] may be [None]: [None] has no attributes. *)
Definition receiver {A} (x : option A) : result A :=
  match x with
  | Some a => Ok a
  | None => Raise AttributeError
  end.

(** [l[0]] *)
Definition subscript0 {A} (l : list A) : result A :=
  match l with
  | a :: _ => Ok a
  | [] => Raise IndexError
  end.

(** References to list objects on the interpreter heap. *)
Definition loc := positive.

(** Code that reads and writes a state [S] and may raise: an exception
    keeps the state reached when it was raised. *)
Definition stateful (S A : Type) : Type := S -> result A * S.

Definition lift {S A} (r : result A) : stateful S A := fun s => (r, s).

Definition sbind {S A B} (k : A -> stateful S B) (m : stateful S A) : stateful S B :=
  fun s =>
    match m s with
    | (Ok a, s') => k a s'
    | (Raise e, s') => (Raise e, s')
    end.

End Py.
Export Py.

#[global] Instance result_bind : MBind result := @rbind.
#[global] Instance stateful_bind {S} : MBind (stateful S) := @sbind S.

(** An element of a binary set: load address, byte image, entry point. *)
Record binary := Binary {
  load_addr : Z;
  image : list Byte.byte;
  entry_point : Z
}.

(** The four classes [get_bridge] chooses from: [gap.gap_debug_bridge],
  [fulmine.fulmine_debug_bridge], [wolfe.wolfe_debug_bridge], and
  [debug_bridge] of [bridge.default_debug_bridge]. *)
Inductive bridge_class :=
| gap_debug_bridge
| fulmine_debug_bridge
| wolfe_debug_bridge
| debug_bridge.

(** The configuration object as [get_bridge] uses it. The tree class lives
  outside this module; every method call may raise. *)
Class ConfigTree (C : Type) := {
  (** [node.get(name)]: the node [name] designates, or [None]. *)
  cfg_get : C -> string -> result (option C);
  (** [node.get_items()]: the children, in insertion order. *)
  cfg_get_items : C -> result (list (string * C));
  (** [leaf.get()]: the scalar a leaf holds. *)
  cfg_value : C -> result pyval
}.

(** One call of a bridge class, as the callee sees it. *)
Record call (C : Type) := Call {
  call_class : bridge_class;
  call_config : C;
  call_binaries : loc;
  call_verbose : bool
}.
Arguments Call {C}.
Arguments call_class {C}.
Arguments call_config {C}.
Arguments call_binaries {C}.
Arguments call_verbose {C}.

(** The state a call runs in: the heap of list objects, whatever lies
  outside the interpreter (cables, target), and the record of the
  class calls made so far. No code reads the record; it is there to
  count calls. *)
Record world (C E : Type) := World {
  heap : gmap loc (list binary);
  outside : E;
  calls : list (call C)
}.
Arguments World {C E}.
Arguments heap {C E}.
Arguments outside {C E}.
Arguments calls {C E}.

(** The function object a [def] creates: default values are evaluated
  once, when the [def] statement runs, and kept in the object. *)
Record function := Function {
  default_binaries : loc;
  default_verbose : bool
}.

Module Selector.
Section Selector.

Context {C : Type} `{ConfigTree C}.
(** Bridge objects, the state outside the interpreter, and what calling
    a bridge class does: the classes are defined in other modules. *)
Variable handle : Type.
Variable E : Type.
Variable init :
  bridge_class -> C -> loc -> bool ->
  gmap loc (list binary) * E -> result handle * (gmap loc (list binary) * E).

Definition M : Type -> Type := stateful (world C E).

(** [bridge_class(config=config, binaries=binaries, verbose=verbose)] *)
Definition instantiate (cls : bridge_class) (config : C) (binaries : loc)
    (verbose : bool) : M handle :=
  fun w =>
    let '(r, (h, e)) := init cls config binaries verbose (heap w, outside w) in
    (r, World h e (calls w ++ [Call cls config binaries verbose])).

(** [def get_bridge(config, binaries=[], verbose=False):] the [def]
    statement allocates the default list. *)
Definition def_get_bridge (w : world C E) : function * world C E :=
  let l := fresh (dom (heap w)) in
  (Function l false, World (<[l := []]> (heap w)) (outside w) (calls w)).

(** [list(config.get('**/pulp_chip').get_items().values())[0].get('name').get()] *)
Definition get_chip (config : C) : result pyval :=
  n ← cfg_get config "**/pulp_chip";
  n ← receiver n;
  items ← cfg_get_items n;
  first ← subscript0 (map snd items);
  nm ← cfg_get first "name";
  nm ← receiver nm;
  cfg_value nm.

(** The [if]/[elif] chain. *)
Definition select_class (chip : pyval) : bridge_class :=
  if py_eq_str chip "gap" then gap_debug_bridge
  else if py_eq_str chip "fulmine" then fulmine_debug_bridge
  else if py_eq_str chip "wolfe" then wolfe_debug_bridge
  else debug_bridge.

(** An omitted argument is [None] here and takes the default kept in
    the function object. *)
Definition get_bridge (f : function) (config : C) (binaries : option loc)
    (verbose : option bool) : M handle :=
  let binaries := default (default_binaries f) binaries in
  let verbose := default (default_verbose f) verbose in
  chip ← lift (get_chip config);
  let bridge_class := select_class chip in
  instantiate bridge_class config binaries verbose.

(** [l.append(x)] on the list object [l] refers to. *)
Definition list_append (l : loc) (x : binary) (w : world C E) : world C E :=
  World (alter (fun bs => bs ++ [x]) l (heap w)) (outside w) (calls w).

(** What a run started in [w] added to the record of class calls. *)
Definition new_calls {A} (m : M A) (w : world C E) : list (call C) :=
  drop (length (calls w)) (calls (m w).2).

End Selector.
End Selector.

Arguments Selector.instantiate {C handle E} init cls config binaries verbose w.
Arguments Selector.get_bridge {C _ handle E} init f config binaries verbose w.
Arguments Selector.def_get_bridge {C E} w.
Arguments Selector.new_calls {C E A} m w.
Arguments Selector.list_append {C E} l x w.

(** ** A configuration tree and a constructor to run [get_bridge] on *)

Module Json.

#[local] Set Warnings "-register-all".

(** Modelled from the spec: the configuration source, a hierarchical,
    queryable structure offering "find nodes matching pattern P" and
    "read named scalar field". The tree class itself is an external
    collaborator; this is the least tree with those two operations:
    objects with ordered named children, and scalar leaves. *)
Inductive config :=
| config_string (value : string)
| config_number (value : Z)
| config_object (items : list (string * config)).

(** The direct child called [key]. *)
Fixpoint child (key : string) (items : list (string * config)) : option config :=
  match items with
  | [] => None
  | (k, v) :: rest => if decide (k = key) then Some v else child key rest
  end.

(** The first node called [key] at any depth, children in order, a
    child before what lies below it. *)
Fixpoint find (key : string) (c : config) : option config :=
  match c with
  | config_object items =>
      (fix go (l : list (string * config)) : option config :=
         match l with
         | [] => None
         | (k, v) :: rest =>
             if decide (k = key) then Some v
             else match find key v with
                  | Some r => Some r
                  | None => go rest
                  end
         end) items
  | _ => None
  end.

(** [node.get(name)]: ["**/key"] looks at any depth, a plain name at
    the children. *)
Definition get (c : config) (name : string) : option config :=
  match name with
  | String "*"%char (String "*"%char (String "/"%char key)) => find key c
  | _ => match c with
         | config_object items => child name items
         | _ => None
         end
  end.

Definition get_items (c : config) : list (string * config) :=
  match c with
  | config_object items => items
  | _ => []
  end.

(** [leaf.get()]; on an object [get] wants its [name] argument. *)
Definition value (c : config) : result pyval :=
  match c with
  | config_string s => Ok (PyStr s)
  | config_number z => Ok (PyInt z)
  | config_object _ => Raise TypeError
  end.

#[global] Instance config_tree : ConfigTree config := {|
  cfg_get c name := Ok (get c name);
  cfg_get_items c := Ok (get_items c);
  cfg_value := value
|}.

(** A bridge object that keeps the three arguments it was built from. *)
Record bridge := Bridge {
  bridge_class_of : bridge_class;
  bridge_config : config;
  bridge_binaries : loc;
  bridge_verbose : bool
}.

(** A constructor that stores its arguments and touches nothing else. *)
Definition store_init (cls : bridge_class) (cfg : config) (binaries : loc)
    (verbose : bool) (s : gmap loc (list binary) * unit)
    : result bridge * (gmap loc (list binary) * unit) :=
  (Ok (Bridge cls cfg binaries verbose), s).

(** [{"board": {"pulp_chip": {<chips>}}}] *)
Definition board (chips : list (string * config)) : config :=
  config_object [("board", config_object [("pulp_chip", config_object chips)])].

(** [{<key>: {"name": <name>}}] *)
Definition chip_node (key name : string) : string * config :=
  (key, config_object [("name", config_string name)]).

(** A configuration declaring the one chip [name]. *)
Definition config_for (name : string) : config := board [chip_node name name].

(** An interpreter with an empty heap in which nothing was called yet. *)
Definition fresh_world : world config unit := World ∅ tt [].

(** The module just loaded: its [def] statement has run. *)
Definition loaded : function * world config unit :=
  Selector.def_get_bridge fresh_world.

Definition run (cfg : config) (binaries : option loc) (verbose : option bool)
    (w : world config unit) : result bridge * world config unit :=
  Selector.get_bridge store_init loaded.1 cfg binaries verbose w.

End Json.

(** ** The capability contract of a bridge handle *)

Module Contract.

(** Modelled from the spec: the bridge capability contract and its state
    machine (section 4.3). The classes that implement it,
    [bridge.default_debug_bridge] and [bridge.chips.*], are not among
    the sources; states, operations, guards and error kinds below are
    the specification's. *)
Inductive run_state := Running | Stopped.

Inductive state :=
| Unattached
| Attached (r : run_state)
| Detached.

(** What a chip-specific bridge supplies: the bound of the memory map,
    the declared register ids, and whether memory and registers may be
    accessed while the cores run. *)
Record chip_desc := ChipDesc {
  mem_bound : Z;
  registers : list Z;
  live_access : bool
}.

(** What goes over the transport. *)
Inductive packet :=
| POpen
| PClose
| PResume
| PHalt
| PStep
| PWrite (addr : Z) (b : Byte.byte)
| PRead (addr : Z) (len : nat)
| PRegRead (id : Z)
| PRegWrite (id value : Z).

(** The target behind the transport. *)
Record target := Target {
  mem : gmap Z Byte.byte;
  regs : gmap Z Z
}.

(** A bridge handle: its chip, its state, the packets sent so far, the
    number of packets the link still carries before it fails, and the
    target. *)
Record handle := Handle {
  chip : chip_desc;
  st : state;
  wire : list packet;
  credit : nat;
  tgt : target
}.

Definition H : Type -> Type := stateful handle.

Definition ok : H unit := lift (Ok tt).

Definition set_state (s : state) : H unit :=
  fun h => (Ok tt, Handle (chip h) s (wire h) (credit h) (tgt h)).

Definition deliver (p : packet) (t : target) : target :=
  match p with
  | PWrite a b => Target (<[a := b]> (mem t)) (regs t)
  | PRegWrite i v => Target (mem t) (<[i := v]> (regs t))
  | _ => t
  end.

(** One packet over the link: [TransportError] once the link is spent. *)
Definition send (p : packet) : H unit :=
  fun h =>
    match credit h with
    | O => (Raise TransportError, h)
    | S n => (Ok tt, Handle (chip h) (st h) (wire h ++ [p]) n (deliver p (tgt h)))
    end.

(** What the physical link answers to the handshake of [attach]. *)
Inductive handshake := NoLink | Malformed | Good.

(** Modelled from the spec: the handle the selector returns,
    "constructed, unattached". *)
Definition new_handle (c : chip_desc) (link : nat) (t : target) : handle :=
  Handle c Unattached [] link t.

(** Modelled from the spec: [attach()], "Unattached → Attached/Stopped";
    [TransportError] "if the physical link cannot be established",
    [ProtocolError] "if the handshake response is malformed". *)
Definition attach (r : handshake) : H unit :=
  fun h =>
    match st h with
    | Unattached =>
        match r with
        | NoLink => (Raise TransportError, h)
        | Malformed => (Raise ProtocolError, h)
        | Good => (_ ← send POpen; set_state (Attached Stopped)) h
        end
    | _ => (Raise InvalidStateError, h)
    end.

(** Modelled from the spec: "binary load addresses must not exceed the
    target's declared memory bounds": the image lies within the bound. *)
Definition fits (c : chip_desc) (b : binary) : bool :=
  bool_decide (0 <= load_addr b)%Z
  && bool_decide (load_addr b + Z.of_nat (length (image b)) <= mem_bound c)%Z.

(** The packets that carry [bytes] to [addr], [addr + 1], ... *)
Fixpoint packets (addr : Z) (bytes : list Byte.byte) : list packet :=
  match bytes with
  | [] => []
  | b :: rest => PWrite addr b :: packets (addr + 1) rest
  end.

Fixpoint send_all (ps : list packet) : H unit :=
  match ps with
  | [] => ok
  | p :: rest => _ ← send p; send_all rest
  end.

(** The packets a binary set takes, image after image. *)
Definition stream (bs : list binary) : list packet :=
  flat_map (fun b => packets (load_addr b) (image b)) bs.

(** Modelled from the spec: "for each image, validates address range
    against the chip memory map, then streams bytes to target memory". *)
Definition load_image (b : binary) : H unit :=
  fun h =>
    if fits (chip h) b then send_all (packets (load_addr b) (image b)) h
    else (Raise OutOfRangeError, h).

Fixpoint load_images (bs : list binary) : H unit :=
  match bs with
  | [] => ok
  | b :: rest => _ ← load_image b; load_images rest
  end.

(** Modelled from the spec: [load(binaries)], "valid only in Attached
    (any run state)"; images are taken in order and "partial writes are
    not rolled back". *)
Definition load (bs : list binary) : H unit :=
  fun h =>
    match st h with
    | Attached _ => load_images bs h
    | _ => (Raise InvalidStateError, h)
    end.

(** Modelled from the spec: [run()], "Stopped → Running ... No-op
    (succeeds trivially) if already Running". *)
Definition run : H unit :=
  fun h =>
    match st h with
    | Attached Running => (Ok tt, h)
    | Attached Stopped => (_ ← send PResume; set_state (Attached Running)) h
    | _ => (Raise InvalidStateError, h)
    end.

(** Modelled from the spec: [stop()], "Running → Stopped ... No-op if
    already Stopped". *)
Definition stop : H unit :=
  fun h =>
    match st h with
    | Attached Stopped => (Ok tt, h)
    | Attached Running => (_ ← send PHalt; set_state (Attached Stopped)) h
    | _ => (Raise InvalidStateError, h)
    end.

(** Modelled from the spec: [step()], "valid only in Stopped ... Fails
    with InvalidStateError if called while Running". *)
Definition step : H unit :=
  fun h =>
    match st h with
    | Attached Stopped => send PStep h
    | _ => (Raise InvalidStateError, h)
    end.

(** Modelled from the spec: memory and registers are "valid in any
    attached state"; a chip without live access restricts them to
    [Stopped], and a violation is an [InvalidStateError]. *)
Definition accessible (h : handle) : bool :=
  match st h with
  | Attached Stopped => true
  | Attached Running => live_access (chip h)
  | _ => false
  end.

Definition declared (h : handle) (id : Z) : bool :=
  bool_decide (id ∈ registers (chip h)).

(** What the target answers to a read. *)
Definition answer {A} (f : target -> A) : H A :=
  fun h => (Ok (f (tgt h)), h).

Definition peek (addr : Z) (len : nat) (t : target) : list Byte.byte :=
  map (fun i => default Byte.x00 (mem t !! (addr + Z.of_nat i)%Z)) (seq 0 len).

(** Modelled from the spec: [read_memory(addr, len)]. *)
Definition read_memory (addr : Z) (len : nat) : H (list Byte.byte) :=
  fun h =>
    if accessible h then (_ ← send (PRead addr len); answer (peek addr len)) h
    else (Raise InvalidStateError, h).

(** Modelled from the spec: [write_memory(addr, bytes)]. *)
Definition write_memory (addr : Z) (bytes : list Byte.byte) : H unit :=
  fun h =>
    if accessible h then send_all (packets addr bytes) h
    else (Raise InvalidStateError, h).

(** Modelled from the spec: [read_register(id)], "same state rules as
    memory access"; an id outside the chip's declared set is an
    [UnknownRegisterError]. *)
Definition read_register (id : Z) : H Z :=
  fun h =>
    if accessible h then
      if declared h id then
        (_ ← send (PRegRead id); answer (fun t => default 0%Z (regs t !! id))) h
      else (Raise UnknownRegisterError, h)
    else (Raise InvalidStateError, h).

(** Modelled from the spec: [write_register(id, value)]. *)
Definition write_register (id value : Z) : H unit :=
  fun h =>
    if accessible h then
      if declared h id then send (PRegWrite id value) h
      else (Raise UnknownRegisterError, h)
    else (Raise InvalidStateError, h).

(** Modelled from the spec: [detach()], "any state → Detached
    (terminal). Releases the Transport Handle. Idempotent". *)
Definition detach : H unit :=
  fun h =>
    match st h with
    | Detached => (Ok tt, h)
    | Unattached => set_state Detached h
    | Attached _ =>
        (Ok tt, Handle (chip h) Detached (wire h ++ [PClose]) (credit h) (tgt h))
    end.

(** The operations as a caller issues them, one after the other. *)
Inductive op :=
| OAttach (r : handshake)
| OLoad (bs : list binary)
| ORun
| OStop
| OStep
| OReadMemory (addr : Z) (len : nat)
| OWriteMemory (addr : Z) (bytes : list Byte.byte)
| OReadRegister (id : Z)
| OWriteRegister (id value : Z)
| ODetach.

(** The capability operations: all but [attach] and [detach]. *)
Definition capability (o : op) : bool :=
  match o with
  | OAttach _ | ODetach => false
  | _ => true
  end.

Definition void {A} (m : H A) : H unit :=
  fun h => match m h with
           | (Ok _, h') => (Ok tt, h')
           | (Raise e, h') => (Raise e, h')
           end.

Definition exec (o : op) : H unit :=
  match o with
  | OAttach r => attach r
  | OLoad bs => load bs
  | ORun => run
  | OStop => stop
  | OStep => step
  | OReadMemory a n => void (read_memory a n)
  | OWriteMemory a bs => write_memory a bs
  | OReadRegister i => void (read_register i)
  | OWriteRegister i v => write_register i v
  | ODetach => detach
  end.

(** A session: each operation runs in the state the one before left,
    whether it succeeded or raised. *)
Fixpoint session (os : list op) (h : handle) : handle :=
  match os with
  | [] => h
  | o :: rest => session rest (exec o h).2
  end.

(** Some [attach] of the session succeeded. *)
Fixpoint attached_once (os : list op) (h : handle) : bool :=
  match os with
  | [] => false
  | o :: rest =>
      match o, (exec o h).1 with
      | OAttach _, Ok _ => true
      | _, _ => attached_once rest (exec o h).2
      end
  end.

End Contract.

(** ** Concrete configurations, images and handles *)

Module Runs.
Import Selector Json.

Definition two_chips : config :=
  board [chip_node "wolfe" "wolfe"; chip_node "gap" "gap"].

Definition two_boards : config :=
  config_object
    [("board0", config_object [("pulp_chip", config_object [chip_node "fulmine" "fulmine"])]);
     ("board1", config_object [("pulp_chip", config_object [chip_node "gap" "gap"])])].

(** The chip "gap" declared under another key, before a second chip. *)
Definition gap_under_other_key : config :=
  board [chip_node "chip0" "gap"; chip_node "wolfe" "wolfe"].

Definition no_chip_node : config := config_object [("board", config_object [])].
Definition no_entry : config := board [].
Definition no_name : config := board [("gap", config_object [("version", config_number 1)])].
Definition empty_name : config := board [chip_node "gap" ""].

Definition an_image : binary := Binary 4096 [Byte.x01; Byte.x02] 4096.

Definition a_chip : Contract.chip_desc := Contract.ChipDesc 8192 [0; 1; 2]%Z false.

Definition a_target : Contract.target := Contract.Target ∅ ∅.

Definition image_at (addr : Z) : binary := Binary addr (replicate 64 Byte.x2a) addr.

(** A handle after a successful [attach]. *)
Definition attached : Contract.handle :=
  Contract.session [Contract.OAttach Contract.Good]
    (Contract.new_handle a_chip 1000 a_target).

End Runs.

(** ** Further inputs: odd chip names, a constructor that refuses *)

Module MoreRuns.
Import Selector Json.

(** The chip name is the number 3, not a string. *)
Definition numeric_name : config :=
  board [("gap", config_object [("name", config_number 3)])].

(** The chip name is itself an object. *)
Definition object_name : config :=
  board [("gap", config_object [("name", config_object [])])].

(** A constructor that raises for the wolfe class and stores its
    arguments for the others. *)
Definition refusing_init (cls : bridge_class) (cfg : config) (binaries : loc)
    (verbose : bool) (s : gmap loc (list binary) * unit)
    : result bridge * (gmap loc (list binary) * unit) :=
  match cls with
  | wolfe_debug_bridge => (Raise TransportError, s)
  | _ => (Ok (Bridge cls cfg binaries verbose), s)
  end.

(** An interpreter that already holds a list object. *)
Definition busy_world : world config unit :=
  World {[ 1%positive := [Binary 0 [] 0] ]} tt [].

End MoreRuns.

(** ** Facts about the selector *)

Module SelectorFacts.
Import Selector.
Section Facts.

Context {C : Type} `{ConfigTree C}.
Variable handle : Type.
Variable E : Type.
Variable init :
  bridge_class -> C -> loc -> bool ->
  gmap loc (list binary) * E -> result handle * (gmap loc (list binary) * E).

Implicit Types (f : function) (config : C) (binaries : option loc)
  (verbose : option bool) (w : world C E) (chip : pyval).

(** The body of [get_bridge], once the chip has or has not been read. *)
Lemma get_bridge_unfold f config binaries verbose w :
  get_bridge init f config binaries verbose w =
  match get_chip config with
  | Ok chip =>
      instantiate init (select_class chip) config
        (default (default_binaries f) binaries)
        (default (default_verbose f) verbose) w
  | Raise e => (Raise e, w)
  end.
Proof.
  unfold get_bridge, mbind, stateful_bind, sbind, lift.
  destruct (get_chip config); reflexivity.
Qed.

Lemma instantiate_calls cls config b v w :
  calls (instantiate init cls config b v w).2 = calls w ++ [Call cls config b v].
Proof.
  unfold instantiate.
  destruct (init cls config b v (heap w, outside w)) as [r [h e]]; reflexivity.
Qed.

Lemma new_calls_instantiate cls config b v w :
  new_calls (instantiate init cls config b v) w = [Call cls config b v].
Proof.
  unfold new_calls. rewrite instantiate_calls.
  rewrite drop_app_length. reflexivity.
Qed.

Lemma new_calls_get_bridge f config binaries verbose w :
  new_calls (get_bridge init f config binaries verbose) w =
  match get_chip config with
  | Ok chip =>
      [Call (select_class chip) config
         (default (default_binaries f) binaries)
         (default (default_verbose f) verbose)]
  | Raise _ => []
  end.
Proof.
  unfold new_calls at 1. rewrite get_bridge_unfold.
  destruct (get_chip config) as [chip|e].
  - apply new_calls_instantiate.
  - simpl. apply drop_all.
Qed.

Lemma py_eq_str_true chip s : py_eq_str chip s = true <-> chip = PyStr s.
Proof.
  destruct chip; simpl; try (split; [discriminate | congruence]).
  rewrite bool_decide_eq_true. split; congruence.
Qed.

Lemma py_eq_str_false chip s : py_eq_str chip s = false <-> chip <> PyStr s.
Proof.
  rewrite <- py_eq_str_true. destruct (py_eq_str chip s); split; congruence.
Qed.

Lemma select_class_gap chip :
  select_class chip = gap_debug_bridge <-> chip = PyStr "gap".
Proof.
  unfold select_class. rewrite <- py_eq_str_true.
  repeat case_match; split; congruence.
Qed.

Lemma select_class_fulmine chip :
  select_class chip = fulmine_debug_bridge <-> chip = PyStr "fulmine".
Proof.
  unfold select_class. split.
  - repeat case_match; try discriminate. intros _. by apply py_eq_str_true.
  - intros ->. reflexivity.
Qed.

Lemma select_class_wolfe chip :
  select_class chip = wolfe_debug_bridge <-> chip = PyStr "wolfe".
Proof.
  unfold select_class. split.
  - repeat case_match; try discriminate. intros _. by apply py_eq_str_true.
  - intros ->. reflexivity.
Qed.

Lemma select_class_generic chip :
  select_class chip = debug_bridge <->
  chip <> PyStr "gap" /\ chip <> PyStr "fulmine" /\ chip <> PyStr "wolfe".
Proof.
  rewrite <- !py_eq_str_false. unfold select_class.
  repeat case_match; split; try discriminate; try tauto.
  all: intros (? & ? & ?); congruence.
Qed.

Lemma instantiate_unfold cls config b v w :
  instantiate init cls config b v w =
  ((init cls config b v (heap w, outside w)).1,
   World (init cls config b v (heap w, outside w)).2.1
         (init cls config b v (heap w, outside w)).2.2
         (calls w ++ [Call cls config b v])).
Proof.
  unfold instantiate.
  destruct (init cls config b v (heap w, outside w)) as [r [h e]]; reflexivity.
Qed.

(** C1: once a chip name has been read from the configuration,
    [get_bridge] returns what the constructor of exactly one class
    returns on its arguments, and leaves heap and outside world as
    that one construction leaves them: the class named after the chip
    for "gap", "fulmine" and "wolfe", the generic [debug_bridge] for
    every other name. The choice is a total function of the name. *)
Theorem get_bridge_dispatch f config binaries verbose w name :
  get_chip config = Ok (PyStr name) ->
  (exists cls,
     get_bridge init f config binaries verbose w =
       instantiate init cls config
         (default (default_binaries f) binaries)
         (default (default_verbose f) verbose) w
     /\ new_calls (get_bridge init f config binaries verbose) w =
          [Call cls config (default (default_binaries f) binaries)
             (default (default_verbose f) verbose)]
     /\ (name = "gap" -> cls = gap_debug_bridge)
     /\ (name = "fulmine" -> cls = fulmine_debug_bridge)
     /\ (name = "wolfe" -> cls = wolfe_debug_bridge)
     /\ (name <> "gap" -> name <> "fulmine" -> name <> "wolfe" ->
         cls = debug_bridge)
     /\ (let r := init cls config
                    (default (default_binaries f) binaries)
                    (default (default_verbose f) verbose)
                    (heap w, outside w) in
         (get_bridge init f config binaries verbose w).1 = r.1
         /\ heap (get_bridge init f config binaries verbose w).2 = r.2.1
         /\ outside (get_bridge init f config binaries verbose w).2 = r.2.2)).
Proof.
  intros Hchip. exists (select_class (PyStr name)).
  rewrite new_calls_get_bridge, get_bridge_unfold, Hchip.
  split; [reflexivity|]. split; [reflexivity|].
  split; [intros ->; reflexivity|].
  split; [intros ->; reflexivity|].
  split; [intros ->; reflexivity|].
  split.
  - intros Hg Hf Hw. apply select_class_generic.
    repeat split; congruence.
  - simpl. rewrite instantiate_unfold. simpl. auto.
Qed.

(** C3: the class constructed depends on the chip read from the
    configuration and on nothing else: two calls whose configurations
    yield the same chip construct the same class, whatever their
    binaries, their verbose flags, and the states they run in. *)
Theorem selection_depends_on_chip_only
    f1 f2 config1 config2 binaries1 binaries2 verbose1 verbose2 w1 w2 chip :
  get_chip config1 = Ok chip ->
  get_chip config2 = Ok chip ->
  call_class <$> new_calls (get_bridge init f1 config1 binaries1 verbose1) w1
    = [select_class chip]
  /\ call_class <$> new_calls (get_bridge init f2 config2 binaries2 verbose2) w2
    = [select_class chip].
Proof.
  intros H1 H2. rewrite !new_calls_get_bridge, H1, H2. split; reflexivity.
Qed.

(** C4: after the chip is read, [get_bridge] calls the selected class
    once, on the configuration, the binaries and the verbose flag it
    was given, and returns what that call returns; heap and outside
    world change as that one call changes them. When the chip cannot be
    read, nothing is called and nothing changes. *)
Theorem get_bridge_calls_class_once f config (binaries : loc) (verbose : bool) w :
  match get_chip config with
  | Ok chip =>
      let r := init (select_class chip) config binaries verbose
                 (heap w, outside w) in
      get_bridge init f config (Some binaries) (Some verbose) w
        = (r.1, World r.2.1 r.2.2
                  (calls w ++ [Call (select_class chip) config binaries verbose]))
      /\ new_calls (get_bridge init f config (Some binaries) (Some verbose)) w
        = [Call (select_class chip) config binaries verbose]
  | Raise e =>
      get_bridge init f config (Some binaries) (Some verbose) w = (Raise e, w)
  end.
Proof.
  pose proof (new_calls_get_bridge f config (Some binaries) (Some verbose) w) as Hn.
  rewrite get_bridge_unfold. destruct (get_chip config) as [chip|e]; [|reflexivity].
  simpl in *. split; [|exact Hn].
  unfold instantiate.
  destruct (init (select_class chip) config binaries verbose (heap w, outside w))
    as [r [h e]]; reflexivity.
Qed.

(** C5: [get_bridge] takes [config], [binaries] and [verbose]; the
    [def] statement makes the default of [binaries] a new list that is
    empty and the default of [verbose] false, and a call that omits the
    two is the call that passes these defaults. *)
Theorem get_bridge_defaults (w0 : world C E) config w :
  let f := (def_get_bridge w0).1 in
  default_verbose f = false
  /\ heap w0 !! default_binaries f = None
  /\ heap (def_get_bridge w0).2 !! default_binaries f = Some []
  /\ get_bridge init f config None None w
     = get_bridge init f config (Some (default_binaries f)) (Some false) w
  /\ new_calls (get_bridge init f config None None) w
     = match get_chip config with
       | Ok chip => [Call (select_class chip) config (default_binaries f) false]
       | Raise _ => []
       end.
Proof.
  simpl. repeat split.
  - apply not_elem_of_dom, is_fresh.
  - apply lookup_insert_eq.
  - rewrite new_calls_get_bridge. reflexivity.
Qed.

(** C9: the chip read from the configuration is compared as a string,
    character by character: the generic [debug_bridge] is constructed
    exactly when the chip is none of the strings "gap", "fulmine" and
    "wolfe", and each chip class exactly when the chip is its name. *)
Theorem chip_match_is_exact f config binaries verbose w chip :
  get_chip config = Ok chip ->
  let constructed :=
    call_class <$> new_calls (get_bridge init f config binaries verbose) w in
  (constructed = [debug_bridge] <->
     chip <> PyStr "gap" /\ chip <> PyStr "fulmine" /\ chip <> PyStr "wolfe")
  /\ (constructed = [gap_debug_bridge] <-> chip = PyStr "gap")
  /\ (constructed = [fulmine_debug_bridge] <-> chip = PyStr "fulmine")
  /\ (constructed = [wolfe_debug_bridge] <-> chip = PyStr "wolfe").
Proof.
  intros Hchip. simpl. rewrite new_calls_get_bridge, Hchip. simpl.
  rewrite <- select_class_generic, <- select_class_gap,
    <- select_class_fulmine, <- select_class_wolfe.
  repeat split; congruence.
Qed.

(** C10: the [def] statement creates one list, empty, and every call
    that omits [binaries] hands the constructor that one list, in
    whatever state the call is made. So when the first construction
    leaves the list with contents [bs] and [x] is appended through the
    reference the first bridge was given, the next call that omits
    [binaries] runs its constructor on that same reference, in a heap
    where the list behind it is [bs] followed by [x]. *)
Theorem default_binaries_shared
    (w0 : world C E) config1 config2 verbose1 verbose2 chip1 chip2 x bs :
  let f := (def_get_bridge w0).1 in
  let w := (def_get_bridge w0).2 in
  let d := default_binaries f in
  let v1 := default (default_verbose f) verbose1 in
  let v2 := default (default_verbose f) verbose2 in
  let r1 := init (select_class chip1) config1 d v1 (heap w, outside w) in
  let w1 := (get_bridge init f config1 None verbose1 w).2 in
  let w1' := list_append d x w1 in
  let r2 := init (select_class chip2) config2 d v2 (heap w1', outside w1') in
  get_chip config1 = Ok chip1 ->
  get_chip config2 = Ok chip2 ->
  r1.2.1 !! d = Some bs ->
  heap w !! d = Some []
  /\ (get_bridge init f config1 None verbose1 w).1 = r1.1
  /\ heap w1 !! d = Some bs
  /\ heap w1' !! d = Some (bs ++ [x])
  /\ (get_bridge init f config2 None verbose2 w1').1 = r2.1
  /\ call_binaries <$> new_calls (get_bridge init f config1 None verbose1) w = [d]
  /\ call_binaries <$> new_calls (get_bridge init f config2 None verbose2) w1' = [d]
  /\ (forall w2,
        (get_bridge init f config2 None verbose2 w2).1
        = (init (select_class chip2) config2 d v2 (heap w2, outside w2)).1
        /\ call_binaries <$> new_calls (get_bridge init f config2 None verbose2) w2
           = [d]).
Proof.
  intros f w d v1 v2 r1 w1 w1' r2 H1 H2 Hbs.
  assert (Hw1 : heap w1 = r1.2.1).
  { unfold w1. rewrite get_bridge_unfold, H1, instantiate_unfold. reflexivity. }
  split; [apply lookup_insert_eq|].
  split; [rewrite get_bridge_unfold, H1, instantiate_unfold; reflexivity|].
  split; [rewrite Hw1; exact Hbs|].
  split.
  { unfold w1', list_append. simpl. rewrite lookup_alter_eq, Hw1, Hbs. reflexivity. }
  split; [rewrite get_bridge_unfold, H2, instantiate_unfold; reflexivity|].
  split; [rewrite new_calls_get_bridge, H1; reflexivity|].
  split; [rewrite new_calls_get_bridge, H2; reflexivity|].
  intros w2. rewrite new_calls_get_bridge, get_bridge_unfold, H2, instantiate_unfold.
  split; reflexivity.
Qed.

(** C2, as the code has it: [get_bridge] fails, calling no class and
    leaving the state as it was, with [AttributeError] when the lookup
    of the pattern yields [None], with [IndexError] when the matched
    node has no entry, and with [AttributeError] when the lookup of the
    first entry's name yields [None]. With one entry or more it reads
    the first and ignores the rest, and returns what the constructor
    of the selected class returns; an empty chip name selects the
    generic [debug_bridge]. *)
Theorem get_bridge_lookup_failures f config binaries verbose w :
  let b := default (default_binaries f) binaries in
  let v := default (default_verbose f) verbose in
  (cfg_get config "**/pulp_chip" = Ok None ->
   get_bridge init f config binaries verbose w = (Raise AttributeError, w))
  /\ (forall n,
        cfg_get config "**/pulp_chip" = Ok (Some n) ->
        cfg_get_items n = Ok [] ->
        get_bridge init f config binaries verbose w = (Raise IndexError, w))
  /\ (forall n key first rest,
        cfg_get config "**/pulp_chip" = Ok (Some n) ->
        cfg_get_items n = Ok ((key, first) :: rest) ->
        cfg_get first "name" = Ok None ->
        get_bridge init f config binaries verbose w = (Raise AttributeError, w))
  /\ (forall n key first rest nm chip,
        cfg_get config "**/pulp_chip" = Ok (Some n) ->
        cfg_get_items n = Ok ((key, first) :: rest) ->
        cfg_get first "name" = Ok (Some nm) ->
        cfg_value nm = Ok chip ->
        get_bridge init f config binaries verbose w =
          instantiate init (select_class chip) config b v w
        /\ (get_bridge init f config binaries verbose w).1
           = (init (select_class chip) config b v (heap w, outside w)).1
        /\ new_calls (get_bridge init f config binaries verbose) w
           = [Call (select_class chip) config b v])
  /\ (forall n key first rest nm,
        cfg_get config "**/pulp_chip" = Ok (Some n) ->
        cfg_get_items n = Ok ((key, first) :: rest) ->
        cfg_get first "name" = Ok (Some nm) ->
        cfg_value nm = Ok (PyStr "") ->
        (get_bridge init f config binaries verbose w).1
          = (init debug_bridge config b v (heap w, outside w)).1
        /\ new_calls (get_bridge init f config binaries verbose) w
           = [Call debug_bridge config b v])
  /\ select_class (PyStr "") = debug_bridge.
Proof.
  intros b v. subst b v.
  assert (Hread : forall n key first rest nm chip,
            cfg_get config "**/pulp_chip" = Ok (Some n) ->
            cfg_get_items n = Ok ((key, first) :: rest) ->
            cfg_get first "name" = Ok (Some nm) ->
            cfg_value nm = Ok chip ->
            get_chip config = Ok chip).
  { intros n key first rest nm chip Hn Hi Hnm Hv. unfold get_chip.
    rewrite Hn. simpl. rewrite Hi. simpl. rewrite Hnm. simpl. exact Hv. }
  split; [|split; [|split; [|split; [|split]]]].
  - intros Hn. rewrite get_bridge_unfold. unfold get_chip. rewrite Hn. reflexivity.
  - intros n Hn Hi. rewrite get_bridge_unfold. unfold get_chip.
    rewrite Hn. simpl. rewrite Hi. reflexivity.
  - intros n key first rest Hn Hi Hnm. rewrite get_bridge_unfold. unfold get_chip.
    rewrite Hn. simpl. rewrite Hi. simpl. rewrite Hnm. reflexivity.
  - intros n key first rest nm chip Hn Hi Hnm Hv.
    rewrite new_calls_get_bridge, get_bridge_unfold.
    rewrite (Hread _ _ _ _ _ _ Hn Hi Hnm Hv), instantiate_unfold.
    split; [|split]; reflexivity.
  - intros n key first rest nm Hn Hi Hnm Hv.
    rewrite new_calls_get_bridge, get_bridge_unfold.
    rewrite (Hread _ _ _ _ _ _ Hn Hi Hnm Hv), instantiate_unfold.
    split; reflexivity.
  - reflexivity.
Qed.

End Facts.
End SelectorFacts.

(** ** Facts about the capability contract *)

Module ContractFacts.
Import Contract.

Lemma send_all_spec ps h :
  chip (send_all ps h).2 = chip h
  /\ st (send_all ps h).2 = st h
  /\ ((send_all ps h).1 = Ok tt
      /\ wire (send_all ps h).2 = wire h ++ ps
      /\ credit (send_all ps h).2 + length ps = credit h
      \/ (send_all ps h).1 = Raise TransportError
         /\ wire (send_all ps h).2 = wire h ++ take (credit h) ps
         /\ credit h < length ps).
Proof.
  revert h. induction ps as [|p ps IH]; intros h.
  - simpl. repeat split. left. rewrite app_nil_r. repeat split. lia.
  - simpl. unfold mbind, stateful_bind, sbind, send.
    destruct (credit h) as [|n] eqn:Hc.
    + simpl. repeat split. right. rewrite app_nil_r. repeat split. lia.
    + set (h1 := Handle _ _ _ _ _).
      destruct (IH h1) as (Hchip & Hst & Hw).
      rewrite Hchip, Hst. repeat split.
      destruct Hw as [(Hr & Hw & Hl) | (Hr & Hw & Hl)]; [left | right];
        rewrite Hr, Hw; simpl; rewrite <- app_assoc; simpl in *; repeat split; lia.
Qed.

Lemma load_images_cons a rest h :
  load_images (a :: rest) h =
  match load_image a h with
  | (Ok _, h1) => load_images rest h1
  | (Raise e, h1) => (Raise e, h1)
  end.
Proof. reflexivity. Qed.

(** One image: refused untouched when out of range, else sent whole, or
    as far as the link carries. *)
Lemma load_image_spec b h :
  let ps := packets (load_addr b) (image b) in
  chip (load_image b h).2 = chip h
  /\ (fits (chip h) b = false /\ load_image b h = (Raise OutOfRangeError, h)
      \/ fits (chip h) b = true
         /\ (load_image b h).1 = Ok tt
         /\ wire (load_image b h).2 = wire h ++ ps
         /\ credit (load_image b h).2 + length ps = credit h
      \/ fits (chip h) b = true
         /\ (load_image b h).1 = Raise TransportError
         /\ wire (load_image b h).2 = wire h ++ take (credit h) ps
         /\ credit h < length ps).
Proof.
  simpl. unfold load_image. destruct (fits (chip h) b); [|auto].
  destruct (send_all_spec (packets (load_addr b) (image b)) h)
    as (Hchip & _ & [? | ?]); auto.
Qed.

Lemma stream_cons a bs : stream (a :: bs) = packets (load_addr a) (image a) ++ stream bs.
Proof. reflexivity. Qed.

(** An image outside the memory bound stops the load where it stands:
    what was sent is a beginning of the images before it. *)
Lemma load_images_stops pre img post h :
  fits (chip h) img = false ->
  exists e k,
    (load_images (pre ++ img :: post) h).1 = Raise e
    /\ (e = OutOfRangeError \/ e = TransportError)
    /\ wire (load_images (pre ++ img :: post) h).2 = wire h ++ take k (stream pre).
Proof.
  revert h. induction pre as [|a pre IH]; intros h Hfit; simpl app;
    rewrite load_images_cons.
  - destruct (load_image_spec img h) as (_ & [(_ & ->) | [(? & _) | (? & _)]]);
      try congruence.
    exists OutOfRangeError, 0. simpl. rewrite app_nil_r. auto.
  - destruct (load_image_spec a h)
      as (Hchip & [(_ & ->) | [(_ & Hr & Hw & _) | (_ & Hr & Hw & Hl)]]).
    + exists OutOfRangeError, 0. simpl. rewrite app_nil_r. auto.
    + destruct (load_image a h) as [[[]|e] h1]; simpl in *; [|discriminate].
      destruct (IH h1) as (e & k & He & Hk & Hw'); [by rewrite Hchip|].
      exists e, (length (packets (load_addr a) (image a)) + k).
      rewrite He, Hw', Hw. repeat split; [done|].
      rewrite take_app_add', <- app_assoc; done.
    + destruct (load_image a h) as [[[]|e] h1]; simpl in *; [discriminate|].
      exists TransportError, (credit h). repeat split; [congruence | auto |].
      rewrite Hw, take_app_le; [done | lia].
Qed.

(** With the images before it in range and a link that carries them,
    they are all sent and the image out of range is what fails. *)
Lemma load_images_out_of_range pre img post h :
  fits (chip h) img = false ->
  forallb (fits (chip h)) pre = true ->
  length (stream pre) <= credit h ->
  (load_images (pre ++ img :: post) h).1 = Raise OutOfRangeError
  /\ wire (load_images (pre ++ img :: post) h).2 = wire h ++ stream pre.
Proof.
  revert h. induction pre as [|a pre IH]; intros h Hfit Hpre Hlen; simpl app;
    rewrite load_images_cons.
  - destruct (load_image_spec img h) as (_ & [(_ & ->) | [(? & _) | (? & _)]]);
      try congruence.
    simpl. rewrite app_nil_r. auto.
  - simpl in Hpre. apply andb_prop in Hpre as [Ha Hpre].
    rewrite stream_cons, length_app in Hlen.
    destruct (load_image_spec a h)
      as (Hchip & [(? & _) | [(_ & Hr & Hw & Hc) | (_ & _ & _ & Hl)]]);
      [congruence | | lia].
    destruct (load_image a h) as [[[]|e] h1]; simpl in *; [|discriminate].
    destruct (IH h1) as (He & Hw'); [by rewrite Hchip | by rewrite Hchip | lia |].
    rewrite He, Hw', Hw, <- app_assoc. done.
Qed.

(** Outside an attached state every capability operation is refused and
    leaves the handle as it is. *)
Lemma capability_refused o h :
  capability o = true ->
  st h = Unattached \/ st h = Detached ->
  exec o h = (Raise InvalidStateError, h).
Proof.
  intros Hcap Hst.
  destruct o; try discriminate; simpl;
    unfold load, run, stop, step, void, read_memory, write_memory,
      read_register, write_register, accessible;
    destruct Hst as [-> | ->]; reflexivity.
Qed.

Lemma exec_detached o h : st h = Detached -> st (exec o h).2 = Detached.
Proof.
  intros Hst. destruct (capability o) eqn:Hcap.
  - rewrite capability_refused; auto.
  - destruct o; try discriminate; simpl; unfold attach, detach; rewrite Hst; done.
Qed.

Lemma session_detached os h : st h = Detached -> st (session os h) = Detached.
Proof.
  revert h. induction os as [|o os IH]; intros h Hst; [done|].
  simpl. apply IH, exec_detached, Hst.
Qed.

Lemma session_app os1 os2 h : session (os1 ++ os2) h = session os2 (session os1 h).
Proof. revert h. induction os1 as [|o os1 IH]; intros h; simpl; auto. Qed.

Lemma detach_detaches h : st (detach h).2 = Detached.
Proof. unfold detach. destruct (st h) eqn:Hst; simpl; done. Qed.

Lemma session_after_detach pre post h :
  st (session (pre ++ ODetach :: post) h) = Detached.
Proof.
  rewrite session_app. simpl. apply session_detached, detach_detaches.
Qed.

(** [attach] on an unattached handle either succeeds or leaves it
    unattached. *)
Lemma attach_outcome r h :
  st h = Unattached ->
  (exec (OAttach r) h).1 = Ok tt \/ st (exec (OAttach r) h).2 = Unattached.
Proof.
  intros Hst. simpl. unfold attach. rewrite Hst.
  destruct r; auto.
  unfold mbind, stateful_bind, sbind, send.
  destruct (credit h); simpl; auto.
Qed.

(** Without a successful [attach] a session never reaches an attached
    state. *)
Lemma session_never_attached os h :
  st h = Unattached \/ st h = Detached ->
  attached_once os h = false ->
  st (session os h) = Unattached \/ st (session os h) = Detached.
Proof.
  revert h. induction os as [|o os IH]; intros h Hst Hno; [done|].
  cbn [attached_once] in Hno.
  change (session (o :: os) h) with (session os (exec o h).2).
  destruct (capability o) eqn:Hcap.
  - rewrite capability_refused in *; auto.
    apply IH; [done|]. destruct o; try discriminate; done.
  - destruct o; try discriminate.
    + destruct Hst as [Hst | Hst].
      * destruct (attach_outcome r h Hst) as [Hok | Hun].
        -- rewrite Hok in Hno. discriminate.
        -- apply IH; [auto|]. destruct ((exec (OAttach r) h).1); done.
      * apply IH; [right; by apply exec_detached|].
        destruct ((exec (OAttach r) h).1); [discriminate | done].
    + apply IH; [right; apply detach_detaches | done].
Qed.

(** C6: on a handle as constructed, whatever operations were issued,
    as long as no [attach] has succeeded every capability operation
    fails with [InvalidStateError]; so does every one issued at any
    point after a [detach]; and a [detach] after a [detach], at once or
    later, succeeds and changes nothing. *)
Theorem capability_needs_attachment c link t os o :
  capability o = true ->
  let h0 := new_handle c link t in
  (attached_once os h0 = false ->
   exec o (session os h0) = (Raise InvalidStateError, session os h0))
  /\ (forall post,
        let h := session (os ++ ODetach :: post) h0 in
        exec o h = (Raise InvalidStateError, h)
        /\ exec ODetach h = (Ok tt, h)).
Proof.
  intros Hcap h0. split.
  - intros Hno. apply capability_refused; [done|].
    apply session_never_attached; auto.
  - intros post h.
    assert (Hd : st h = Detached) by apply session_after_detach.
    split; [apply capability_refused; auto|].
    simpl. unfold detach. rewrite Hd. reflexivity.
Qed.

(** C7: on an attached bridge an image beyond the memory bound makes
    [load] fail with [OutOfRangeError] and nothing of it is sent. In a
    binary set, what [load] has sent when it fails is a beginning of
    the images before that one; and when those are in range and the
    link carries them, they are sent whole and the failure is
    [OutOfRangeError]. *)
Theorem load_checks_bounds_first h r pre img post :
  st h = Attached r ->
  fits (chip h) img = false ->
  load [img] h = (Raise OutOfRangeError, h)
  /\ (exists e k,
        (load (pre ++ img :: post) h).1 = Raise e
        /\ (e = OutOfRangeError \/ e = TransportError)
        /\ wire (load (pre ++ img :: post) h).2 = wire h ++ take k (stream pre))
  /\ (forallb (fits (chip h)) pre = true ->
      length (stream pre) <= credit h ->
      (load (pre ++ img :: post) h).1 = Raise OutOfRangeError
      /\ wire (load (pre ++ img :: post) h).2 = wire h ++ stream pre).
Proof.
  intros Hst Hfit. unfold load. rewrite Hst. repeat split.
  - rewrite load_images_cons.
    destruct (load_image_spec img h) as (_ & [(_ & ->) | [(? & _) | (? & _)]]);
      congruence.
  - by apply load_images_stops.
  - by apply load_images_out_of_range.
  - by apply load_images_out_of_range.
Qed.

(** C8: [run] on a running target and [stop] on a stopped one succeed
    and leave the handle as it is; so a [run] right after a [run] that
    succeeded, and a [stop] right after a [stop] that succeeded, do
    nothing. *)
Theorem same_state_transitions h :
  (st h = Attached Running -> run h = (Ok tt, h))
  /\ (st h = Attached Stopped -> stop h = (Ok tt, h))
  /\ ((run h).1 = Ok tt ->
      st (run h).2 = Attached Running /\ run (run h).2 = (Ok tt, (run h).2))
  /\ ((stop h).1 = Ok tt ->
      st (stop h).2 = Attached Stopped /\ stop (stop h).2 = (Ok tt, (stop h).2)).
Proof.
  split; [|split; [|split]].
  - unfold run. intros ->. reflexivity.
  - unfold stop. intros ->. reflexivity.
  - destruct h as [c [|[]|] wi [|n] t]; intros Hr;
      try discriminate Hr; split; reflexivity.
  - destruct h as [c [|[]|] wi [|n] t]; intros Hr;
      try discriminate Hr; split; reflexivity.
Qed.

End ContractFacts.

(** ** The selector and the contract on concrete inputs *)

Import Selector Json Runs.

Example select_class_runs :
  select_class (PyStr "gap") = gap_debug_bridge
  /\ select_class (PyStr "fulmine") = fulmine_debug_bridge
  /\ select_class (PyStr "wolfe") = wolfe_debug_bridge
  /\ select_class (PyStr "Wolfe") = debug_bridge
  /\ select_class (PyInt 3) = debug_bridge
  /\ select_class PyNone = debug_bridge.
Proof. repeat split. Qed.

Lemma get_bridge_dispatch_runs :
  (get_chip (config_for "wolfe") = Ok (PyStr "wolfe")
   /\ (get_bridge store_init loaded.1 (config_for "wolfe") None None loaded.2).1
      = Ok (Bridge wolfe_debug_bridge (config_for "wolfe")
              (default_binaries loaded.1) false)
   /\ call_class <$> new_calls
        (get_bridge store_init loaded.1 (config_for "wolfe") None None) loaded.2
      = [wolfe_debug_bridge])
  /\ (get_chip (config_for "unknown-chip-123") = Ok (PyStr "unknown-chip-123")
      /\ (get_bridge store_init loaded.1 (config_for "unknown-chip-123")
            None None loaded.2).1
         = Ok (Bridge debug_bridge (config_for "unknown-chip-123")
                 (default_binaries loaded.1) false)
      /\ call_class <$> new_calls
           (get_bridge store_init loaded.1 (config_for "unknown-chip-123") None None)
           loaded.2
         = [debug_bridge]).
Proof.
  split; (split; [reflexivity|]).
  - destruct (@SelectorFacts.get_bridge_dispatch config config_tree bridge unit store_init loaded.1
                (config_for "wolfe") None None loaded.2 "wolfe" eq_refl)
      as (cls & _ & Hcalls & _ & _ & Hw & _ & Hres & _).
    rewrite Hres, Hcalls, (Hw eq_refl). split; reflexivity.
  - destruct (@SelectorFacts.get_bridge_dispatch config config_tree bridge unit store_init loaded.1
                (config_for "unknown-chip-123") None None loaded.2
                "unknown-chip-123" eq_refl)
      as (cls & _ & Hcalls & _ & _ & _ & Ho & Hres & _).
    rewrite Hres, Hcalls, Ho; [split; reflexivity | discriminate..].
Defined.

Lemma selection_depends_on_chip_only_runs :
  get_chip (config_for "gap") = Ok (PyStr "gap")
  /\ get_chip gap_under_other_key = Ok (PyStr "gap")
  /\ call_class <$> new_calls
       (get_bridge store_init loaded.1 (config_for "gap") None (Some true)) loaded.2
     = [gap_debug_bridge]
  /\ call_class <$> new_calls
       (get_bridge store_init (Function 9%positive true) gap_under_other_key (Some 7%positive) None)
       fresh_world
     = [gap_debug_bridge].
Proof.
  split; [reflexivity|]. split; [reflexivity|].
  exact (@SelectorFacts.selection_depends_on_chip_only config config_tree bridge unit store_init
           loaded.1 (Function 9%positive true) (config_for "gap") gap_under_other_key
           None (Some 7%positive) (Some true) None loaded.2 fresh_world
           (PyStr "gap") eq_refl eq_refl).
Defined.

Lemma chip_match_is_exact_runs :
  (get_chip (config_for "GAP") = Ok (PyStr "GAP")
   /\ call_class <$> new_calls
        (get_bridge store_init loaded.1 (config_for "GAP") None None) loaded.2
      = [debug_bridge])
  /\ (get_chip (config_for "gap ") = Ok (PyStr "gap ")
      /\ call_class <$> new_calls
           (get_bridge store_init loaded.1 (config_for "gap ") None None) loaded.2
         = [debug_bridge]).
Proof.
  split; (split; [reflexivity|]).
  - apply (@SelectorFacts.chip_match_is_exact config config_tree bridge unit
             store_init loaded.1 (config_for "GAP") None None loaded.2
             (PyStr "GAP") eq_refl).
    repeat split; discriminate.
  - apply (@SelectorFacts.chip_match_is_exact config config_tree bridge unit
             store_init loaded.1 (config_for "gap ") None None loaded.2
             (PyStr "gap ") eq_refl).
    repeat split; discriminate.
Defined.

Lemma default_binaries_shared_runs :
  let d := default_binaries loaded.1 in
  let r1 := get_bridge store_init loaded.1 (config_for "gap") None None loaded.2 in
  let w1' := list_append d an_image r1.2 in
  let r2 := get_bridge store_init loaded.1 (config_for "wolfe") None (Some true) w1' in
  get_chip (config_for "gap") = Ok (PyStr "gap")
  /\ get_chip (config_for "wolfe") = Ok (PyStr "wolfe")
  /\ (store_init gap_debug_bridge (config_for "gap") d false
        (heap loaded.2, outside loaded.2)).2.1 !! d = Some []
  /\ heap loaded.2 !! d = Some []
  /\ r1.1 = Ok (Bridge gap_debug_bridge (config_for "gap") d false)
  /\ heap w1' !! d = Some [an_image]
  /\ r2.1 = Ok (Bridge wolfe_debug_bridge (config_for "wolfe") d true)
  /\ call_binaries <$> new_calls
       (get_bridge store_init loaded.1 (config_for "gap") None None) loaded.2 = [d]
  /\ call_binaries <$> new_calls
       (get_bridge store_init loaded.1 (config_for "wolfe") None (Some true)) w1' = [d].
Proof.
  destruct (@SelectorFacts.default_binaries_shared config config_tree bridge unit
              store_init fresh_world (config_for "gap") (config_for "wolfe")
              None (Some true) (PyStr "gap") (PyStr "wolfe") an_image []
              eq_refl eq_refl eq_refl)
    as (Hempty & Hfirst & _ & Hseen & Hsecond & Hc1 & Hc2 & _).
  split; [reflexivity|]. split; [reflexivity|]. split; [reflexivity|].
  split; [exact Hempty|]. split; [exact Hfirst|]. split; [exact Hseen|].
  split; [exact Hsecond|]. split; [exact Hc1 | exact Hc2].
Defined.

(** The second bridge of the run above sees the element appended through
    the first one's list. *)
Example default_binaries_shared_observed :
  let r1 := run (config_for "gap") None None loaded.2 in
  let appended b := list_append (bridge_binaries b) an_image r1.2 in
  match r1.1 with
  | Ok b1 =>
      match (run (config_for "wolfe") None None (appended b1)) with
      | (Ok b2, w2) =>
          bridge_binaries b2 = bridge_binaries b1
          /\ heap w2 !! bridge_binaries b2 = Some [an_image]
      | _ => False
      end
  | _ => False
  end.
Proof. vm_compute. split; reflexivity. Qed.

Lemma get_bridge_lookup_failures_runs :
  get_bridge store_init loaded.1 no_chip_node None None loaded.2
    = (Raise AttributeError, loaded.2)
  /\ get_bridge store_init loaded.1 no_entry None None loaded.2
    = (Raise IndexError, loaded.2)
  /\ get_bridge store_init loaded.1 no_name None None loaded.2
    = (Raise AttributeError, loaded.2)
  /\ (get_bridge store_init loaded.1 two_chips None None loaded.2).1
    = Ok (Bridge wolfe_debug_bridge two_chips (default_binaries loaded.1) false)
  /\ (get_bridge store_init loaded.1 empty_name None None loaded.2).1
    = Ok (Bridge debug_bridge empty_name (default_binaries loaded.1) false).
Proof.
  split; [|split; [|split; [|split]]].
  - apply (@SelectorFacts.get_bridge_lookup_failures config config_tree bridge unit
             store_init loaded.1 no_chip_node None None loaded.2).
    reflexivity.
  - eapply (@SelectorFacts.get_bridge_lookup_failures config config_tree bridge unit
              store_init loaded.1 no_entry None None loaded.2); reflexivity.
  - eapply (@SelectorFacts.get_bridge_lookup_failures config config_tree bridge unit
              store_init loaded.1 no_name None None loaded.2); reflexivity.
  - destruct (@SelectorFacts.get_bridge_lookup_failures config config_tree bridge unit
                store_init loaded.1 two_chips None None loaded.2)
      as (_ & _ & _ & Hfirst & _).
    exact (proj1 (proj2 (Hfirst
             (config_object [chip_node "wolfe" "wolfe"; chip_node "gap" "gap"])
             "wolfe" (chip_node "wolfe" "wolfe").2 [chip_node "gap" "gap"]
             (config_string "wolfe") (PyStr "wolfe")
             eq_refl eq_refl eq_refl eq_refl))).
  - destruct (@SelectorFacts.get_bridge_lookup_failures config config_tree bridge unit
                store_init loaded.1 empty_name None None loaded.2)
      as (_ & _ & _ & _ & Hempty & _).
    exact (proj1 (Hempty
             (config_object [chip_node "gap" ""])
             "gap" (chip_node "gap" "").2 []
             (config_string "") eq_refl eq_refl eq_refl eq_refl)).
Defined.

(** C2 fails on the code: with two chip entries, with two matching
    nodes, and with an empty chip name [get_bridge] returns a bridge;
    with no entry and with no matching node it raises [IndexError] and
    [AttributeError], not [ConfigurationError]. *)
Lemma get_bridge_raises_no_configuration_error :
  (run two_chips None None loaded.2).1
    = Ok (Bridge wolfe_debug_bridge two_chips 1%positive false)
  /\ (run two_boards None None loaded.2).1
    = Ok (Bridge fulmine_debug_bridge two_boards 1%positive false)
  /\ (run empty_name None None loaded.2).1
    = Ok (Bridge debug_bridge empty_name 1%positive false)
  /\ (run no_entry None None loaded.2).1 = Raise IndexError
  /\ (run no_chip_node None None loaded.2).1 = Raise AttributeError
  /\ (run no_name None None loaded.2).1 = Raise AttributeError.
Proof. repeat split. Qed.

Lemma capability_needs_attachment_runs :
  let h0 := Contract.new_handle a_chip 1000 a_target in
  let before := [Contract.ORun; Contract.OAttach Contract.NoLink;
                 Contract.OLoad [image_at 4096]] in
  let after := [Contract.OAttach Contract.Good; Contract.ORun; Contract.ODetach;
                Contract.OAttach Contract.Good] in
  Contract.capability Contract.OStep = true
  /\ Contract.attached_once before h0 = false
  /\ Contract.exec Contract.OStep (Contract.session before h0)
     = (Raise InvalidStateError, Contract.session before h0)
  /\ Contract.exec Contract.OStep (Contract.session after h0)
     = (Raise InvalidStateError, Contract.session after h0)
  /\ Contract.exec Contract.ODetach (Contract.session after h0)
     = (Ok tt, Contract.session after h0).
Proof.
  split; [reflexivity|]. split; [reflexivity|]. split.
  - apply (ContractFacts.capability_needs_attachment a_chip 1000 a_target
             [Contract.ORun; Contract.OAttach Contract.NoLink;
              Contract.OLoad [image_at 4096]]
             Contract.OStep eq_refl).
    reflexivity.
  - apply (ContractFacts.capability_needs_attachment a_chip 1000 a_target
             [Contract.OAttach Contract.Good; Contract.ORun]
             Contract.OStep eq_refl).
Defined.

Lemma load_checks_bounds_first_runs :
  Contract.st attached = Contract.Attached Contract.Stopped
  /\ Contract.fits (Contract.chip attached) (image_at 20480) = false
  /\ forallb (Contract.fits (Contract.chip attached)) [image_at 4096] = true
  /\ length (Contract.stream [image_at 4096]) <= Contract.credit attached
  /\ Contract.load [image_at 20480] attached = (Raise OutOfRangeError, attached)
  /\ (Contract.load [image_at 4096; image_at 20480; image_at 0] attached).1
     = Raise OutOfRangeError
  /\ Contract.wire (Contract.load [image_at 4096; image_at 20480; image_at 0] attached).2
     = Contract.wire attached ++ Contract.stream [image_at 4096].
Proof.
  assert (Hlen : length (Contract.stream [image_at 4096]) <= Contract.credit attached)
    by (vm_compute; lia).
  destruct (ContractFacts.load_checks_bounds_first attached Contract.Stopped
              [image_at 4096] (image_at 20480) [image_at 0] eq_refl eq_refl)
    as (Hone & _ & Hset).
  destruct (Hset eq_refl Hlen) as [Herr Hwire].
  split; [reflexivity|]. split; [reflexivity|]. split; [reflexivity|].
  split; [exact Hlen|]. split; [exact Hone|]. split; [exact Herr | exact Hwire].
Defined.

Lemma same_state_transitions_runs :
  let running := (Contract.run attached).2 in
  (Contract.run attached).1 = Ok tt
  /\ Contract.st running = Contract.Attached Contract.Running
  /\ Contract.run running = (Ok tt, running)
  /\ Contract.st attached = Contract.Attached Contract.Stopped
  /\ Contract.stop attached = (Ok tt, attached).
Proof.
  destruct (ContractFacts.same_state_transitions attached)
    as (_ & Hstop & Hrun & _).
  split; [reflexivity|].
  destruct (Hrun eq_refl) as [Hst Hagain].
  split; [exact Hst|]. split; [exact Hagain|].
  split; [reflexivity | exact (Hstop eq_refl)].
Defined.

(** The two loads of the specification's scenario: 64 bytes at 0x1000
    under a bound of 0x2000 are sent, 64 bytes at 0x5000 are refused. *)
Example load_scenario :
  (Contract.load [image_at 4096] attached).1 = Ok tt
  /\ length (Contract.wire (Contract.load [image_at 4096] attached).2) = 65
  /\ Contract.load [image_at 20480] attached = (Raise OutOfRangeError, attached).
Proof. repeat split. Qed.

(** ** More about the selector *)

Module SelectorMore.
Import Selector.
Section More.

Context {C : Type} `{ConfigTree C}.
Variable handle : Type.
Variable E : Type.
Variable init :
  bridge_class -> C -> loc -> bool ->
  gmap loc (list binary) * E -> result handle * (gmap loc (list binary) * E).

Implicit Types (f : function) (config : C) (binaries : option loc)
  (verbose : option bool) (w : world C E) (chip : pyval).

Lemma instantiate_result cls config b v w :
  (instantiate init cls config b v w).1
  = (init cls config b v (heap w, outside w)).1.
Proof.
  unfold instantiate.
  destruct (init cls config b v (heap w, outside w)) as [r [h e]]; reflexivity.
Qed.

(** X1: [get_bridge] raises [e] exactly when reading the chip raised
    [e], or the chip was read and the call of the selected class raised
    [e]: it has no error of its own and swallows none. When reading the
    chip raises, no class is called and the state stays as it was. *)
Theorem get_bridge_error_provenance f config binaries verbose w e :
  ((get_bridge init f config binaries verbose w).1 = Raise e <->
   get_chip config = Raise e
   \/ exists chip,
        get_chip config = Ok chip
        /\ (init (select_class chip) config
              (default (default_binaries f) binaries)
              (default (default_verbose f) verbose) (heap w, outside w)).1
           = Raise e)
  /\ (get_chip config = Raise e ->
      get_bridge init f config binaries verbose w = (Raise e, w)
      /\ new_calls (get_bridge init f config binaries verbose) w = []).
Proof.
  rewrite SelectorFacts.new_calls_get_bridge, SelectorFacts.get_bridge_unfold.
  destruct (get_chip config) as [chip|e'] eqn:Hchip.
  - rewrite instantiate_result. split; [|discriminate]. split.
    + intros Hr. right. exists chip. auto.
    + intros [Hr | (chip' & Heq & Hr)]; [discriminate|].
      injection Heq as <-. exact Hr.
  - simpl. split.
    + split; [intros [= ->]; left; reflexivity|].
      intros [[= ->] | (chip & Heq & _)]; [reflexivity | discriminate].
    + intros [= ->]. auto.
Qed.

(** X2: the chip is read from the value of the first entry of the
    matched node and from nothing else: two configurations whose
    matched nodes start with the same value, under whatever keys and
    followed by whatever entries, yield the same chip and have the same
    class called. *)
Theorem chip_read_from_first_value
    f1 f2 config1 config2 n1 n2 (key1 key2 : string) (first : C) rest1 rest2
    binaries1 binaries2 verbose1 verbose2 w1 w2 :
  cfg_get config1 "**/pulp_chip" = Ok (Some n1) ->
  cfg_get config2 "**/pulp_chip" = Ok (Some n2) ->
  cfg_get_items n1 = Ok ((key1, first) :: rest1) ->
  cfg_get_items n2 = Ok ((key2, first) :: rest2) ->
  get_chip config1 = get_chip config2
  /\ call_class <$> new_calls (get_bridge init f1 config1 binaries1 verbose1) w1
     = call_class <$> new_calls (get_bridge init f2 config2 binaries2 verbose2) w2.
Proof.
  intros Hn1 Hn2 Hi1 Hi2.
  assert (Heq : get_chip config1 = get_chip config2).
  { unfold get_chip. rewrite Hn1, Hn2. simpl. rewrite Hi1, Hi2. reflexivity. }
  split; [exact Heq|].
  rewrite !SelectorFacts.new_calls_get_bridge, Heq.
  destruct (get_chip config2); reflexivity.
Qed.

(** X3: a chip name that is not a string, be it [None], a boolean or a
    number, equals none of the three names: the generic
    [debug_bridge] is called. *)
Theorem non_string_chip_is_generic f config binaries verbose w chip :
  get_chip config = Ok chip ->
  (forall s, chip <> PyStr s) ->
  get_bridge init f config binaries verbose w
    = instantiate init debug_bridge config
        (default (default_binaries f) binaries)
        (default (default_verbose f) verbose) w
  /\ call_class <$> new_calls (get_bridge init f config binaries verbose) w
     = [debug_bridge].
Proof.
  intros Hchip Hns.
  assert (Hg : select_class chip = debug_bridge).
  { apply SelectorFacts.select_class_generic. repeat split; apply Hns. }
  rewrite SelectorFacts.new_calls_get_bridge, SelectorFacts.get_bridge_unfold, Hchip.
  simpl. rewrite Hg. split; reflexivity.
Qed.

(** X4: the [def] statement gives the function a list object of its
    own: the default list is none of the lists that existed, every
    list that existed is still there unchanged, nothing outside the
    heap changes, and running the statement again yields another
    list. *)
Theorem def_allocates_own_default w :
  let f := (def_get_bridge w).1 in
  let w' := (def_get_bridge w).2 in
  (forall l bs, heap w !! l = Some bs ->
     l <> default_binaries f /\ heap w' !! l = Some bs)
  /\ (forall l, l <> default_binaries f -> heap w' !! l = heap w !! l)
  /\ outside w' = outside w
  /\ calls w' = calls w
  /\ default_binaries (def_get_bridge w').1 <> default_binaries f.
Proof.
  simpl.
  assert (Hfresh : heap w !! fresh (dom (heap w)) = None)
    by apply not_elem_of_dom, is_fresh.
  split; [|split; [|split; [|split]]]; try reflexivity.
  - intros l bs Hl.
    assert (Hne : l <> fresh (dom (heap w))) by congruence.
    split; [exact Hne|]. rewrite lookup_insert_ne; [exact Hl | congruence].
  - intros l Hne. apply lookup_insert_ne. congruence.
  - intros Heq.
    pose proof (is_fresh (dom (<[fresh (dom (heap w)) := []]> (heap w)))) as Hnew.
    rewrite Heq in Hnew. apply Hnew.
    rewrite dom_insert. set_solver.
Qed.

End More.
End SelectorMore.

Import MoreRuns.

Lemma get_bridge_error_provenance_runs :
  get_chip no_entry = Raise IndexError
  /\ get_bridge store_init loaded.1 no_entry None None loaded.2
     = (Raise IndexError, loaded.2)
  /\ new_calls (get_bridge store_init loaded.1 no_entry None None) loaded.2 = []
  /\ (get_bridge refusing_init loaded.1 (config_for "wolfe") None None loaded.2).1
     = Raise TransportError
  /\ (get_bridge store_init loaded.1 object_name None None loaded.2).1
     = Raise TypeError.
Proof.
  split; [reflexivity|].
  destruct (@SelectorMore.get_bridge_error_provenance config config_tree bridge unit
              store_init loaded.1 no_entry None None loaded.2 IndexError)
    as [_ Hkeep].
  destruct (Hkeep eq_refl) as [Hsame Hnone].
  split; [exact Hsame|]. split; [exact Hnone|]. split.
  - apply (@SelectorMore.get_bridge_error_provenance config config_tree bridge unit
             refusing_init loaded.1 (config_for "wolfe") None None loaded.2
             TransportError).
    right. exists (PyStr "wolfe"). split; reflexivity.
  - apply (@SelectorMore.get_bridge_error_provenance config config_tree bridge unit
             store_init loaded.1 object_name None None loaded.2 TypeError).
    left. reflexivity.
Defined.

Lemma chip_read_from_first_value_runs :
  get_chip (config_for "gap") = get_chip gap_under_other_key
  /\ call_class <$> new_calls
       (get_bridge store_init loaded.1 (config_for "gap") None None) loaded.2
     = call_class <$> new_calls
         (get_bridge store_init loaded.1 gap_under_other_key (Some 5%positive)
            (Some true)) fresh_world.
Proof.
  eapply (@SelectorMore.chip_read_from_first_value config config_tree bridge unit
            store_init loaded.1 loaded.1 (config_for "gap") gap_under_other_key);
    reflexivity.
Defined.

Lemma non_string_chip_is_generic_runs :
  get_chip numeric_name = Ok (PyInt 3)
  /\ get_bridge store_init loaded.1 numeric_name None None loaded.2
     = instantiate store_init debug_bridge numeric_name
         (default_binaries loaded.1) false loaded.2
  /\ call_class <$> new_calls
       (get_bridge store_init loaded.1 numeric_name None None) loaded.2
     = [debug_bridge].
Proof.
  split; [reflexivity|].
  apply (@SelectorMore.non_string_chip_is_generic config config_tree bridge unit
           store_init loaded.1 numeric_name None None loaded.2 (PyInt 3) eq_refl).
  intros s. discriminate.
Defined.

Lemma def_allocates_own_default_runs :
  heap busy_world !! 1%positive = Some [Binary 0 [] 0]
  /\ 1%positive <> default_binaries (def_get_bridge busy_world).1
  /\ heap (def_get_bridge busy_world).2 !! 1%positive = Some [Binary 0 [] 0]
  /\ default_binaries (def_get_bridge (def_get_bridge busy_world).2).1
     <> default_binaries (def_get_bridge busy_world).1.
Proof.
  destruct (@SelectorMore.def_allocates_own_default config unit busy_world)
    as (Hkept & _ & _ & _ & Hother).
  split; [reflexivity|].
  destruct (Hkept 1%positive [Binary 0 [] 0] eq_refl) as [Hne Hstill].
  split; [exact Hne|]. split; [exact Hstill | exact Hother].
Defined.
